(** * download_yt.py: a command-line front end for an audio download engine

    The script parses one URL argument, makes sure the directory
    [downloads] exists, builds the option dictionary [ydl_opts] from the
    dictionary [cli_defaults], and calls the engine once.

    The development follows the script statement by statement.  Python
    objects live in a heap (dictionaries and lists are reached through
    references, so that sharing and mutation are visible), the file system
    is a finite map of names of the working directory, and the statements
    are computations in a state-and-exception monad. *)

From Stdlib Require Import ZArith Ascii String.
From stdpp Require Import gmap strings list fin_maps.

Set Warnings "-register-all".

Local Open Scope string_scope.
Local Open Scope list_scope.

(** ** Python values *)

(** A location is an index in the heap. *)
Abbreviation loc := nat.

(** Immutable values are held directly; dictionaries and lists are heap
    objects and values only refer to them. *)
Inductive pyval :=
| VInt (z : Z)
| VBool (b : bool)
| VStr (s : string)
| VRef (l : loc).

(** A dictionary keeps its items in insertion order, as CPython does; all
    keys of this script are strings. *)
Abbreviation pydict := (list (string * pyval)).

Inductive pyobj :=
| ODict (d : pydict)
| OList (xs : list pyval).

(** [d.get(k)] without default: the value of the first item with key [k]. *)
Fixpoint dict_get (d : pydict) (k : string) : option pyval :=
  match d with
  | [] => None
  | (k', v) :: d' => if decide (k' = k) then Some v else dict_get d' k
  end.

(** [d[k] = v]: an existing key keeps its position and takes the new value,
    a new key goes to the end. *)
Fixpoint dict_set (d : pydict) (k : string) (v : pyval) : pydict :=
  match d with
  | [] => [(k, v)]
  | (k', v') :: d' =>
      if decide (k' = k) then (k', v) :: d' else (k', v') :: dict_set d' k v
  end.

(** [d.update(src)], also the meaning of [**src] inside a dictionary
    display: the items of [src] are stored one after the other. *)
Definition dict_update (d src : pydict) : pydict :=
  foldl (λ acc kv, dict_set acc kv.1 kv.2) d src.

(** A dictionary display [{k1: v1, ..., kn: vn}]. *)
Definition dict_display (items : pydict) : pydict := dict_update [] items.

(** A dictionary object never holds a key twice. *)
Definition dict_wf (d : pydict) : Prop := NoDup d.*1.

(** ** The file system *)

Inductive node :=
| File (data : string)
| Dir (entries : gmap string node).

(** The working directory: its entries by name, and whether the process may
    create entries in it. *)
Record filesystem := Filesystem {
  cwd : gmap string node;
  cwd_writable : bool
}.

Inductive oserror := FileExistsError | PermissionError.

(** ** Exceptions, calls into the engine, and the state *)

Inductive exn :=
| SystemExit (code : Z)
| OSError (e : oserror)
| TypeError
| AttributeError
| SystemError
| EngineError (msg : string).

(** What the script asks of [yt_dlp], in the order it asks. *)
Inductive call :=
| CallYoutubeDL (params : loc)
| CallDownload (url_list : loc)
| CallExit.

Record world := World {
  heap : list pyobj;
  fs : filesystem;
  calls : list call
}.

Inductive outcome (A : Type) :=
| Ret (a : A)
| Raise (e : exn).
Arguments Ret {A} a.
Arguments Raise {A} e.

Definition M (A : Type) : Type := world → outcome A * world.

Definition ret {A} (a : A) : M A := λ w, (Ret a, w).
Definition raise {A} (e : exn) : M A := λ w, (Raise e, w).
Definition bind {A B} (c : M A) (k : A → M B) : M B :=
  λ w, match c w with
       | (Ret a, w') => k a w'
       | (Raise e, w') => (Raise e, w')
       end.

Notation "'let!' x ':=' c 'in' k" := (bind c (λ x, k))
  (at level 10, x name, c at level 100, k at level 200).
Notation "c ';;;' k" := (bind c (λ _, k))
  (at level 100, k at level 200, right associativity).

(** ** Heap operations *)

(** A new object takes the next free location; no existing object moves
    or changes. *)
Definition alloc (o : pyobj) : M loc :=
  λ w, (Ret (length (heap w)), World (heap w ++ [o]) (fs w) (calls w)).

Definition load (l : loc) : M pyobj :=
  λ w, match heap w !! l with
       | Some o => (Ret o, w)
       | None => (Raise SystemError, w)
       end.

(** The items behind [**x] in a dictionary display: [x] must be a mapping. *)
Definition mapping_items (l : loc) : M pydict :=
  let! o := load l in
  match o with
  | ODict d => ret d
  | OList _ => raise TypeError
  end.

(** [x.get(k, dflt)]: only dictionaries have the method. *)
Definition get_method (l : loc) (k : string) (dflt : pyval) : M pyval :=
  let! o := load l in
  match o with
  | ODict d => ret (default dflt (dict_get d k))
  | OList _ => raise AttributeError
  end.

(** Strings hold UTF-8 text.  A byte of the form [10xxxxxx] continues the
    character begun before it. *)
Definition is_continuation (a : ascii) : bool :=
  let n := nat_of_ascii a in (128 <=? n)%nat && (n <? 192)%nat.

(** The characters of [s] from its first complete one on, preceded by the
    continuation bytes at its very start, which belong to no character. *)
Fixpoint split_points (s : string) : string * list string :=
  match s with
  | EmptyString => (EmptyString, [])
  | String a s' =>
      let '(pending, points) := split_points s' in
      if is_continuation a then (String a pending, points)
      else (EmptyString, String a pending :: points)
  end.

(** The characters (code points) of a string, each as a string. *)
Definition code_points (s : string) : list string :=
  let '(pending, points) := split_points s in
  match pending with
  | EmptyString => points
  | String _ _ => pending :: points
  end.

(** Iterating a string gives its characters, as one-character strings. *)
Definition chars (s : string) : list pyval := VStr <$> code_points s.

(** The elements behind [*x] in a list display: a list gives its elements,
    a dictionary its keys, a string its characters; numbers and booleans
    are not iterable. *)
Definition iterate (v : pyval) : M (list pyval) :=
  match v with
  | VInt _ | VBool _ => raise TypeError
  | VStr s => ret (chars s)
  | VRef l =>
      let! o := load l in
      match o with
      | OList xs => ret xs
      | ODict d => ret (VStr <$> d.*1)
      end
  end.

(** ** The statements of the script *)

Definition OUTPUT_DIRECTORY : string := "downloads".

(** [os.mkdir(name)] for a name in the working directory. *)
Definition os_mkdir (name : string) (f : filesystem) : oserror + filesystem :=
  match cwd f !! name with
  | Some _ => inl FileExistsError
  | None =>
      if cwd_writable f
      then inr (Filesystem (<[name := Dir ∅]> (cwd f)) (cwd_writable f))
      else inl PermissionError
  end.

Definition os_path_isdir (name : string) (f : filesystem) : bool :=
  match cwd f !! name with
  | Some (Dir _) => true
  | _ => false
  end.

(** [os.makedirs(name, exist_ok=exist_ok)] for a name without a separator:
    there is no parent to create, the directory is made with [os.mkdir],
    and an [OSError] is let through unless [exist_ok] is set and the name
    is a directory. *)
Definition os_makedirs (name : string) (exist_ok : bool) : M unit :=
  λ w, match os_mkdir name (fs w) with
       | inr f' => (Ret (), World (heap w) f' (calls w))
       | inl e =>
           if negb exist_ok || negb (os_path_isdir name (fs w))
           then (Raise (OSError e), w)
           else (Ret (), w)
       end.

Definition cli_defaults_items : pydict :=
  [("fragment_retries", VInt 10);
   ("ignoreerrors", VStr "only_download");
   ("retries", VInt 10);
   ("warn_when_outdated", VBool true)].

(** [cli_defaults = {...}] *)
Definition cli_defaults : M loc :=
  alloc (ODict (dict_display cli_defaults_items)).

Definition FFmpegExtractAudio : pydict :=
  [("key", VStr "FFmpegExtractAudio");
   ("preferredcodec", VStr "mp3");
   ("preferredquality", VStr "0")].

Definition outtmpl : string :=
  OUTPUT_DIRECTORY +:+ "/%(uploader)s - %(title)s.%(ext)s".

(** [ydl_opts = { **cli_defaults, 'format': ..., 'postprocessors': [...],
    'outtmpl': ... }], with the display's items evaluated from left to
    right. *)
Definition ydl_opts (cli_defaults : loc) : M loc :=
  let! unpacked := mapping_items cli_defaults in
  let! step := alloc (ODict (dict_display FFmpegExtractAudio)) in
  let! empty := alloc (OList []) in
  let! cli_postprocessors := get_method cli_defaults "postprocessors" (VRef empty) in
  let! kept := iterate cli_postprocessors in
  let! postprocessors := alloc (OList (VRef step :: kept)) in
  alloc (ODict (dict_update (dict_update [] unpacked)
                  [("format", VStr "bestaudio/best");
                   ("postprocessors", VRef postprocessors);
                   ("outtmpl", VStr outtmpl)])).

(** ** Reading a value back as a tree *)

Inductive pytree :=
| TInt (z : Z)
| TBool (b : bool)
| TStr (s : string)
| TList (xs : list pytree)
| TDict (items : list (string * pytree)).

(** The value with every reference followed, at most [n] references deep. *)
Fixpoint reify (n : nat) (h : list pyobj) (v : pyval) {struct n} : option pytree :=
  match v with
  | VInt z => Some (TInt z)
  | VBool b => Some (TBool b)
  | VStr s => Some (TStr s)
  | VRef l =>
      match n with
      | O => None
      | S n' =>
          match h !! l with
          | Some (OList xs) => TList <$> mapM (reify n' h) xs
          | Some (ODict d) => TDict <$> mapM (λ kv, pair kv.1 <$> reify n' h kv.2) d
          | None => None
          end
      end
  end.

Fixpoint items_get (items : list (string * pytree)) (k : string) : option pytree :=
  match items with
  | [] => None
  | (k', t) :: items' => if decide (k' = k) then Some t else items_get items' k
  end.

(** [t[k]] for a tree that is a dictionary. *)
Definition tree_get (t : pytree) (k : string) : option pytree :=
  match t with
  | TDict items => items_get items k
  | _ => None
  end.

(** ** The external libraries *)

(** The engine is a black box: its constructor may refuse the options, its
    download may write files and may fail.  Both see the heap (they are
    handed references) and the file system.  What the engine does to the
    objects it is handed is not followed here, so what it is handed is
    always stated about the state at the call. *)
Record yt_dlp := {
  YoutubeDL_init : list pyobj → loc → filesystem → option exn;
  YoutubeDL_download : list pyobj → loc → loc → filesystem → filesystem * option exn
}.

Definition starts_with_dash (a : string) : bool :=
  match a with
  | String c _ => bool_decide (c = "-"%char)
  | EmptyString => false
  end.

Definition exit_status (r : outcome unit) : Z :=
  match r with
  | Ret _ => 0%Z
  | Raise (SystemExit code) => code
  | Raise _ => 1%Z
  end.

Section Orchestrator.

(** What [argparse] does with a command line that has an argument starting
    with its prefix character [-] (help, [--], unknown options): the
    script leaves all of that to the library. *)
Variable dashed_args : list string → outcome string.
Variable engine : yt_dlp.

(** [parser.parse_args()] for a parser with the single positional [url] of
    type [str], on [sys.argv[1:]]; the result is [args.url].  A missing or
    a surplus argument is a usage error, which exits with status 2. *)
Definition parse_args (argv : list string) : M string :=
  λ w, (if existsb starts_with_dash argv then dashed_args argv
        else match argv with
             | [] => Raise (SystemExit 2)
             | [url] => Ret url
             | _ :: _ :: _ => Raise (SystemExit 2)
             end, w).

(** [yt_dlp.YoutubeDL(params)] *)
Definition YoutubeDL (params : loc) : M unit :=
  λ w, let w' := World (heap w) (fs w) (calls w ++ [CallYoutubeDL params]) in
       match YoutubeDL_init engine (heap w) params (fs w) with
       | Some e => (Raise e, w')
       | None => (Ret (), w')
       end.

(** [ydl.download(url_list)] *)
Definition download (params url_list : loc) : M unit :=
  λ w, let '(f', r) := YoutubeDL_download engine (heap w) params url_list (fs w) in
       let w' := World (heap w) f' (calls w ++ [CallDownload url_list]) in
       match r with
       | Some e => (Raise e, w')
       | None => (Ret (), w')
       end.

(** [ydl.__exit__]: releases the engine and lets an exception through. *)
Definition YoutubeDL_exit : M unit :=
  λ w, (Ret (), World (heap w) (fs w) (calls w ++ [CallExit])).

(** The body of a [with] statement followed by the exit of its context
    manager, which runs whether the body raised or not. *)
Definition with_exit {A} (body : M A) : M A :=
  λ w, match body w with
       | (r, w') =>
           match YoutubeDL_exit w' with
           | (Ret _, w'') => (r, w'')
           | (Raise e, w'') => (Raise e, w'')
           end
       end.

(** Lines 14 to 39: the two dictionaries and the [with] statement. *)
Definition download_audio (youtube_url : string) : M unit :=
  let! defaults := cli_defaults in
  let! opts := ydl_opts defaults in
  YoutubeDL opts ;;;
  with_exit (let! url_list := alloc (OList [VStr youtube_url]) in
             download opts url_list).

(** The whole script, on the command line [argv]. *)
Definition main (argv : list string) : M unit :=
  let! youtube_url := parse_args argv in
  os_makedirs OUTPUT_DIRECTORY true ;;;
  download_audio youtube_url.

End Orchestrator.

(** The start of a run: an empty heap, no call made yet. *)
Definition boot (f : filesystem) : world := World [] f [].

(** An engine that accepts every option and downloads nothing, and a parser
    that rejects every dashed command line, for running examples. *)
Definition quiet_engine : yt_dlp :=
  {| YoutubeDL_init := λ _ _ _, None;
     YoutubeDL_download := λ _ _ _ f, (f, None) |}.

Definition reject_dashed : list string → outcome string :=
  λ _, Raise (SystemExit 2).

(** ** Descriptions of states, used to state what the script does *)

(** The elements of [v] in heap [h], when [v] can be iterated there. *)
Definition elements (h : list pyobj) (v : pyval) : option (list pyval) :=
  match v with
  | VInt _ | VBool _ => None
  | VStr s => Some (chars s)
  | VRef l =>
      match h !! l with
      | Some (OList xs) => Some xs
      | Some (ODict d) => Some (VStr <$> d.*1)
      | None => None
      end
  end.

(** The items of the new dictionary, given the items [d] of [cli_defaults]
    and the location of the new list of post-processors. *)
Definition merged (d : pydict) (postprocessors : loc) : pydict :=
  dict_update (dict_update [] d)
    [("format", VStr "bestaudio/best");
     ("postprocessors", VRef postprocessors);
     ("outtmpl", VStr outtmpl)].

(** The heap after the assignment: four new objects, nothing else. *)
Definition assembled (h : list pyobj) (d : pydict) (kept : list pyval) : list pyobj :=
  h ++ [ODict FFmpegExtractAudio;
        OList [];
        OList (VRef (length h) :: kept);
        ODict (merged d (length h + 2))].

(** The post-processors that [cli_defaults] supplies: the elements of its
    ['postprocessors'] entry, none when it has no such entry. *)
Definition supplied (h : list pyobj) (d : pydict) : option (list pyval) :=
  match dict_get d "postprocessors" with
  | None => Some []
  | Some v => elements h v
  end.

(** The heap once both dictionaries are built, starting from [h]. *)
Definition configured (h : list pyobj) : list pyobj :=
  assembled (h ++ [ODict cli_defaults_items]) cli_defaults_items [].

Definition FFmpegExtractAudio_tree : pytree :=
  TDict [("key", TStr "FFmpegExtractAudio");
         ("preferredcodec", TStr "mp3");
         ("preferredquality", TStr "0")].

(** The options of the script, read as a value. *)
Definition ydl_opts_tree : pytree :=
  TDict [("fragment_retries", TInt 10);
         ("ignoreerrors", TStr "only_download");
         ("retries", TInt 10);
         ("warn_when_outdated", TBool true);
         ("format", TStr "bestaudio/best");
         ("postprocessors", TList [FFmpegExtractAudio_tree]);
         ("outtmpl", TStr "downloads/%(uploader)s - %(title)s.%(ext)s")].

(** [v1] in heap [h1] and [v2] in heap [h2] have the same value: followed
    to any depth, both read as the same tree, keys in the same order, or
    neither can be read.  Values that are the same in this sense are equal
    for Python's [==]. *)
Definition same_value (h1 : list pyobj) (v1 : pyval) (h2 : list pyobj) (v2 : pyval) : Prop :=
  ∀ n, reify n h1 v1 = reify n h2 v2.

(** The [download] calls among the calls made, by their argument. *)
Definition download_calls (cs : list call) : list loc :=
  omap (λ c, match c with CallDownload l => Some l | _ => None end) cs.

(** The directory can be there after [os.makedirs]: it is one already, or
    the name is free and the working directory lets the process create. *)
Definition can_make (name : string) (f : filesystem) : Prop :=
  os_path_isdir name f = true ∨ (cwd f !! name = None ∧ cwd_writable f = true).

(** ** States for examples *)

(** Defaults that collide with the display's own keys. *)
Definition colliding_defaults : world :=
  World [ODict [("format", VStr "worst"); ("retries", VInt 3); ("outtmpl", VStr "x")]]
        (Filesystem ∅ true) [].

(** Defaults that bring two post-processors of their own. *)
Definition defaults_with_postprocessors : world :=
  World [ODict [("key", VStr "EmbedThumbnail")];
         ODict [("key", VStr "FFmpegMetadata")];
         OList [VRef 0; VRef 1];
         ODict [("retries", VInt 10); ("postprocessors", VRef 2)]]
        (Filesystem ∅ true) [].

(** Lines 38 and 39: the [with] statement, for options already built. *)
Definition with_YoutubeDL (engine : yt_dlp) (youtube_url : string) (opts : loc) : M unit :=
  YoutubeDL engine opts ;;;
  with_exit (let! url_list := alloc (OList [VStr youtube_url]) in
             download engine opts url_list).


(** The file system the directory step of a run leaves, whether it raised
    or not. *)
Definition after_makedirs (f : filesystem) : filesystem :=
  fs (os_makedirs OUTPUT_DIRECTORY true (boot f)).2.

(** Numbers and booleans cannot be unpacked with [*]. *)
Definition iterable (v : pyval) : bool :=
  match v with
  | VInt _ | VBool _ => false
  | VStr _ | VRef _ => true
  end.

(** * What the script does *)

(** ** Dictionaries *)

Example dict_set_order :
  dict_set [("a", VInt 1); ("b", VInt 2)] "a" (VInt 3) = [("a", VInt 3); ("b", VInt 2)].
Proof. reflexivity. Qed.

Lemma dict_get_set_eq (d : pydict) k v : dict_get (dict_set d k v) k = Some v.
Proof.
  induction d as [|[k' v'] d IH]; simpl.
  - by rewrite decide_True.
  - destruct (decide (k' = k)) as [->|Hne]; simpl.
    + by rewrite decide_True.
    + by rewrite decide_False.
Qed.

Lemma dict_get_set_ne (d : pydict) k k' v :
  k ≠ k' → dict_get (dict_set d k v) k' = dict_get d k'.
Proof.
  intros Hne. induction d as [|[k0 v0] d IH]; simpl.
  - by rewrite decide_False.
  - destruct (decide (k0 = k)) as [->|Hk0]; simpl.
    + by rewrite !decide_False.
    + by rewrite IH.
Qed.

Lemma dict_set_fresh (d : pydict) (k : string) (v : pyval) : k ∉ d.*1 → dict_set d k v = d ++ [(k, v)].
Proof.
  induction d as [|[k' v'] d IH]; simpl; [done|].
  rewrite not_elem_of_cons. intros [Hne Hd].
  rewrite decide_False by done. by rewrite IH.
Qed.

Lemma dict_update_fresh (acc d : pydict) :
  NoDup (acc.*1 ++ d.*1) → dict_update acc d = acc ++ d.
Proof.
  revert acc. induction d as [|[k v] d IH]; intros acc Hnd; simpl.
  - by rewrite app_nil_r.
  - unfold dict_update in *. simpl.
    assert (Hk : k ∉ acc.*1).
    { apply NoDup_app in Hnd as (_ & Hdisj & _). intros Hin.
      apply (Hdisj _ Hin). simpl. left. }
    rewrite (dict_set_fresh _ _ _ Hk). rewrite IH.
    + by rewrite <- app_assoc.
    + rewrite fmap_app. simpl. rewrite <- app_assoc. done.
Qed.

(** Unpacking a dictionary into an empty one copies it. *)
Lemma dict_update_nil (d : pydict) : dict_wf d → dict_update [] d = d.
Proof. intros Hwf. by rewrite dict_update_fresh. Qed.

(** ** The heap only grows *)

Lemma lookup_new {A} (h news : list A) (i : nat) :
  (h ++ news) !! (length h + i) = news !! i.
Proof. induction h as [|x h IH]; simpl; done. Qed.

Lemma lookup_new_0 {A} (h news : list A) :
  (h ++ news) !! length h = news !! 0.
Proof. rewrite <- (lookup_new h news 0). f_equal. lia. Qed.

Lemma lookup_old {A} (h news : list A) (i : nat) x :
  h !! i = Some x → (h ++ news) !! i = Some x.
Proof. intros H. by apply lookup_app_l_Some. Qed.

(** ** What the assignment to [ydl_opts] does *)

Lemma iterate_elements v w :
  iterate v w =
  match elements (heap w) v with
  | Some xs => (Ret xs, w)
  | None => (Raise (match v with VRef _ => SystemError | _ => TypeError end), w)
  end.
Proof.
  destruct v as [z|b|s|l]; simpl; try done.
  unfold bind, load. destruct (heap w !! l) as [[d|xs]|]; done.
Qed.

Lemma ydl_opts_unfold cd w :
  ydl_opts cd w =
  match heap w !! cd with
  | None => (Raise SystemError, w)
  | Some (OList _) => (Raise TypeError, w)
  | Some (ODict d) =>
      let h2 := heap w ++ [ODict FFmpegExtractAudio; OList []] in
      let v := default (VRef (length (heap w) + 1)) (dict_get d "postprocessors") in
      match elements h2 v with
      | None => (Raise (match v with VRef _ => SystemError | _ => TypeError end),
                 World h2 (fs w) (calls w))
      | Some kept =>
          (Ret (length (heap w) + 3), World (assembled (heap w) d kept) (fs w) (calls w))
      end
  end.
Proof.
  unfold ydl_opts, mapping_items, get_method, bind at 1 2. unfold load at 1.
  destruct (heap w !! cd) as [[d|xs]|] eqn:Hcd; try done.
  unfold ret at 1, bind at 1, alloc at 1. unfold bind at 1, alloc at 1. simpl.
  unfold bind at 1 2, load at 1. simpl.
  rewrite <- app_assoc. simpl.
  rewrite (lookup_old _ _ _ _ Hcd). unfold ret at 1.
  rewrite !length_app. simpl.
  unfold bind at 1. rewrite iterate_elements. simpl.
  destruct (elements _ _) as [kept|]; [|done].
  unfold bind, alloc. simpl. unfold assembled, merged.
  rewrite !length_app. simpl. rewrite <- !app_assoc. simpl.
  change (dict_display FFmpegExtractAudio) with FFmpegExtractAudio.
  by replace (length (heap w) + 2 + 1) with (length (heap w) + 3) by lia.
Qed.

Lemma elements_mono h news v xs :
  elements h v = Some xs → elements (h ++ news) v = Some xs.
Proof.
  destruct v as [z|b|s|l]; simpl; try done.
  destruct (h !! l) as [o|] eqn:Hl; [|done].
  by rewrite (lookup_old _ news _ _ Hl).
Qed.

Lemma ydl_opts_Ret w cd d kept :
  heap w !! cd = Some (ODict d) →
  supplied (heap w) d = Some kept →
  ydl_opts cd w =
    (Ret (length (heap w) + 3), World (assembled (heap w) d kept) (fs w) (calls w)).
Proof.
  intros Hcd Hkept. rewrite ydl_opts_unfold, Hcd. unfold supplied in Hkept.
  destruct (dict_get d "postprocessors") as [v|]; simpl.
  - by rewrite (elements_mono _ _ _ _ Hkept).
  - rewrite lookup_new. simpl. by injection Hkept as <-.
Qed.

Section Assembled.
Variables (h : list pyobj) (d : pydict) (kept : list pyval).

Lemma assembled_old l o : h !! l = Some o → assembled h d kept !! l = Some o.
Proof. apply lookup_old. Qed.

Lemma assembled_step :
  assembled h d kept !! length h = Some (ODict FFmpegExtractAudio).
Proof. unfold assembled. by rewrite lookup_new_0. Qed.

Lemma assembled_postprocessors :
  assembled h d kept !! (length h + 2) = Some (OList (VRef (length h) :: kept)).
Proof. unfold assembled. by rewrite lookup_new. Qed.

Lemma assembled_ydl_opts :
  assembled h d kept !! (length h + 3) = Some (ODict (merged d (length h + 2))).
Proof. unfold assembled. by rewrite lookup_new. Qed.
End Assembled.

Lemma merged_format d p : dict_get (merged d p) "format" = Some (VStr "bestaudio/best").
Proof.
  unfold merged, dict_update at 1. simpl.
  rewrite !dict_get_set_ne by done. apply dict_get_set_eq.
Qed.

Lemma merged_postprocessors d p : dict_get (merged d p) "postprocessors" = Some (VRef p).
Proof.
  unfold merged, dict_update at 1. simpl.
  rewrite dict_get_set_ne by done. apply dict_get_set_eq.
Qed.

Lemma merged_outtmpl d p :
  dict_get (merged d p) "outtmpl" =
    Some (VStr "downloads/%(uploader)s - %(title)s.%(ext)s").
Proof. unfold merged, dict_update at 1. simpl. apply dict_get_set_eq. Qed.

Lemma merged_other d p (k : string) :
  dict_wf d → k ∉ ["format"; "postprocessors"; "outtmpl"] →
  dict_get (merged d p) k = dict_get d k.
Proof.
  intros Hwf Hk. unfold merged, dict_update at 1. simpl.
  rewrite !dict_get_set_ne by set_solver. by rewrite dict_update_nil.
Qed.

(** C2. When [cli_defaults] and the display's own items share a key, the
    new dictionary has the display's value for it: ['format'] and
    ['outtmpl'] are the two strings and ['postprocessors'] is the new list,
    whatever [cli_defaults] held under these keys.  Every other key of
    [cli_defaults] is there with the value it has in [cli_defaults]. *)
Theorem ydl_opts_later_item_wins (w : world) (cd : loc) (d : pydict) (kept : list pyval) :
  heap w !! cd = Some (ODict d) →
  dict_wf d →
  supplied (heap w) d = Some kept →
  ∃ o w' cfg pp st,
    ydl_opts cd w = (Ret o, w') ∧
    heap w' !! o = Some (ODict cfg) ∧
    dict_get cfg "format" = Some (VStr "bestaudio/best") ∧
    dict_get cfg "postprocessors" = Some (VRef pp) ∧
    heap w' !! pp = Some (OList (VRef st :: kept)) ∧
    heap w' !! st = Some (ODict FFmpegExtractAudio) ∧
    dict_get cfg "outtmpl" = Some (VStr "downloads/%(uploader)s - %(title)s.%(ext)s") ∧
    ∀ k : string, k ∉ ["format"; "postprocessors"; "outtmpl"] →
                  dict_get cfg k = dict_get d k.
Proof.
  intros Hcd Hwf Hkept.
  eexists _, _, _, _, _. split; [by apply ydl_opts_Ret|]. cbn [heap].
  split; [apply assembled_ydl_opts|].
  split; [apply merged_format|].
  split; [apply merged_postprocessors|].
  split; [apply assembled_postprocessors|].
  split; [apply assembled_step|].
  split; [apply merged_outtmpl|].
  intros k Hk. by apply merged_other.
Qed.

Lemma ydl_opts_later_item_wins_witness :
  ∃ o w' cfg pp st,
    ydl_opts 0 colliding_defaults = (Ret o, w') ∧
    heap w' !! o = Some (ODict cfg) ∧
    dict_get cfg "format" = Some (VStr "bestaudio/best") ∧
    dict_get cfg "postprocessors" = Some (VRef pp) ∧
    heap w' !! pp = Some (OList (VRef st :: [])) ∧
    heap w' !! st = Some (ODict FFmpegExtractAudio) ∧
    dict_get cfg "outtmpl" = Some (VStr "downloads/%(uploader)s - %(title)s.%(ext)s") ∧
    ∀ k : string, k ∉ ["format"; "postprocessors"; "outtmpl"] →
                  dict_get cfg k =
                  dict_get [("format", VStr "worst"); ("retries", VInt 3); ("outtmpl", VStr "x")] k.
Proof.
  apply (ydl_opts_later_item_wins colliding_defaults 0
           [("format", VStr "worst"); ("retries", VInt 3); ("outtmpl", VStr "x")] []).
  - reflexivity.
  - unfold dict_wf. compute_done.
  - reflexivity.
Defined.

(** C3. Whatever [cli_defaults] holds, the post-processors it supplies are
    all in the new list, in their order, right after the transcoding step,
    and the objects they refer to are as they were. *)
Theorem ydl_opts_keeps_cli_postprocessors
    (w : world) (cd : loc) (d : pydict) (steps : list pyval) :
  heap w !! cd = Some (ODict d) →
  supplied (heap w) d = Some steps →
  ∃ o w' cfg pp st,
    ydl_opts cd w = (Ret o, w') ∧
    heap w' !! o = Some (ODict cfg) ∧
    dict_get cfg "postprocessors" = Some (VRef pp) ∧
    heap w' !! pp = Some (OList (VRef st :: steps)) ∧
    heap w' !! st = Some (ODict FFmpegExtractAudio) ∧
    ∀ l obj, heap w !! l = Some obj → heap w' !! l = Some obj.
Proof.
  intros Hcd Hsteps.
  eexists _, _, _, _, _. split; [by apply ydl_opts_Ret|]. cbn [heap].
  split; [apply assembled_ydl_opts|].
  split; [apply merged_postprocessors|].
  split; [apply assembled_postprocessors|].
  split; [apply assembled_step|].
  intros l obj. apply assembled_old.
Qed.

Lemma ydl_opts_keeps_cli_postprocessors_witness :
  ∃ o w' cfg pp st,
    ydl_opts 3 defaults_with_postprocessors = (Ret o, w') ∧
    heap w' !! o = Some (ODict cfg) ∧
    dict_get cfg "postprocessors" = Some (VRef pp) ∧
    heap w' !! pp = Some (OList (VRef st :: [VRef 0; VRef 1])) ∧
    heap w' !! st = Some (ODict FFmpegExtractAudio) ∧
    ∀ l obj, heap defaults_with_postprocessors !! l = Some obj → heap w' !! l = Some obj.
Proof.
  apply (ydl_opts_keeps_cli_postprocessors defaults_with_postprocessors 3
           [("retries", VInt 10); ("postprocessors", VRef 2)] [VRef 0; VRef 1]);
    reflexivity.
Defined.

(** ** The two dictionaries of the script *)

Lemma cli_defaults_run w :
  cli_defaults w =
    (Ret (length (heap w)),
     World (heap w ++ [ODict cli_defaults_items]) (fs w) (calls w)).
Proof. reflexivity. Qed.

Lemma cli_defaults_supplies_nothing h : supplied h cli_defaults_items = Some [].
Proof. reflexivity. Qed.

Lemma merged_cli_defaults p :
  merged cli_defaults_items p =
    [("fragment_retries", VInt 10);
     ("ignoreerrors", VStr "only_download");
     ("retries", VInt 10);
     ("warn_when_outdated", VBool true);
     ("format", VStr "bestaudio/best");
     ("postprocessors", VRef p);
     ("outtmpl", VStr "downloads/%(uploader)s - %(title)s.%(ext)s")].
Proof. reflexivity. Qed.

Lemma ydl_opts_after_cli_defaults w :
  ydl_opts (length (heap w)) (cli_defaults w).2 =
    (Ret (length (heap w) + 4), World (configured (heap w)) (fs w) (calls w)).
Proof.
  rewrite cli_defaults_run. simpl.
  erewrite ydl_opts_Ret; simpl.
  - rewrite length_app. simpl. unfold configured.
    by replace (length (heap w) + 1 + 3) with (length (heap w) + 4) by lia.
  - by rewrite lookup_new_0.
  - apply cli_defaults_supplies_nothing.
Qed.

Lemma configured_lookup h i :
  configured h !! (length h + i) =
    [ODict cli_defaults_items; ODict FFmpegExtractAudio; OList [];
     OList [VRef (length h + 1)]; ODict (merged cli_defaults_items (length h + 3))] !! i.
Proof.
  unfold configured, assembled. rewrite <- app_assoc, lookup_new. simpl.
  rewrite length_app. simpl.
  by replace (length h + 1 + 2) with (length h + 3) by lia.
Qed.

Lemma reify_ref n h l :
  reify (S n) h (VRef l) =
  match h !! l with
  | Some (OList xs) => TList <$> mapM (reify n h) xs
  | Some (ODict d) => TDict <$> mapM (λ kv, pair kv.1 <$> reify n h kv.2) d
  | None => None
  end.
Proof. reflexivity. Qed.

Lemma reify_step n h l :
  h !! l = Some (ODict FFmpegExtractAudio) →
  reify (S n) h (VRef l) = Some FFmpegExtractAudio_tree.
Proof. intros Hl. rewrite reify_ref, Hl. by destruct n. Qed.

Lemma reify_configured h :
  reify 3 (configured h) (VRef (length h + 4)) = Some ydl_opts_tree.
Proof.
  rewrite reify_ref, configured_lookup. simpl lookup.
  rewrite merged_cli_defaults.
  assert (Hpp : reify 2 (configured h) (VRef (length h + 3)) =
                Some (TList [FFmpegExtractAudio_tree])).
  { rewrite reify_ref, configured_lookup. simpl lookup.
    assert (Hst : reify 1 (configured h) (VRef (length h + 1)) =
                  Some FFmpegExtractAudio_tree).
    { apply reify_step. by rewrite configured_lookup. }
    cbn [mapM]. by rewrite Hst. }
  cbn [mapM fst snd]. rewrite Hpp. reflexivity.
Qed.

Lemma configuration_built w :
  ∃ w1, cli_defaults w = (Ret (length (heap w)), w1) ∧
        heap w1 = heap w ++ [ODict cli_defaults_items] ∧
        ydl_opts (length (heap w)) w1 =
          (Ret (length (heap w) + 4), World (configured (heap w)) (fs w) (calls w)).
Proof.
  eexists. split; [apply cli_defaults_run|]. split; [done|].
  apply (ydl_opts_after_cli_defaults w).
Qed.

(** C1. In every state the two assignments succeed, [cli_defaults] has no
    ['postprocessors'] entry and so supplies nothing, and the
    ['postprocessors'] list of the new dictionary is the transcoding step
    alone: key [FFmpegExtractAudio], codec [mp3], quality ['0']. *)
Theorem postprocessors_is_the_transcoding_step (w : world) :
  ∃ cd w1 o w2,
    cli_defaults w = (Ret cd, w1) ∧
    ydl_opts cd w1 = (Ret o, w2) ∧
    (∃ d, heap w1 !! cd = Some (ODict d) ∧
          dict_get d "postprocessors" = None ∧
          supplied (heap w1) d = Some []) ∧
    (reify 3 (heap w2) (VRef o) ≫= λ t, tree_get t "postprocessors") =
      Some (TList [TDict [("key", TStr "FFmpegExtractAudio");
                          ("preferredcodec", TStr "mp3");
                          ("preferredquality", TStr "0")]]).
Proof.
  destruct (configuration_built w) as (w1 & Hcd & Hh1 & Hopts).
  eexists _, _, _, _. split; [exact Hcd|]. split; [exact Hopts|]. split.
  - exists cli_defaults_items. rewrite Hh1, lookup_new_0. done.
  - cbn [heap]. by rewrite reify_configured.
Qed.

(** C7. In every state the new dictionary has ['ignoreerrors'] set to
    ['only_download'] and ['outtmpl'] set to the template
    [downloads/%(uploader)s - %(title)s.%(ext)s]. *)
Theorem ignoreerrors_and_outtmpl (w : world) :
  ∃ cd w1 o w2 cfg,
    cli_defaults w = (Ret cd, w1) ∧
    ydl_opts cd w1 = (Ret o, w2) ∧
    heap w2 !! o = Some (ODict cfg) ∧
    dict_get cfg "ignoreerrors" = Some (VStr "only_download") ∧
    dict_get cfg "outtmpl" = Some (VStr "downloads/%(uploader)s - %(title)s.%(ext)s") ∧
    outtmpl = OUTPUT_DIRECTORY +:+ "/" +:+ "%(uploader)s - %(title)s.%(ext)s".
Proof.
  destruct (configuration_built w) as (w1 & Hcd & Hh1 & Hopts).
  eexists _, _, _, _, _. split; [exact Hcd|]. split; [exact Hopts|]. simpl.
  split; [apply (configured_lookup _ 4)|].
  rewrite ?merged_cli_defaults. done.
Qed.

(** C10. Building [ydl_opts] leaves [cli_defaults] alone: before and after
    it is the dictionary with exactly [fragment_retries] 10, [ignoreerrors]
    ['only_download'], [retries] 10 and [warn_when_outdated] [True]; no
    object that existed before is changed; and the new dictionary has the
    same four entries. *)
Theorem cli_defaults_not_mutated (w : world) :
  ∃ cd w1 o w2 cfg,
    cli_defaults w = (Ret cd, w1) ∧
    ydl_opts cd w1 = (Ret o, w2) ∧
    heap w1 !! cd = Some (ODict [("fragment_retries", VInt 10);
                                 ("ignoreerrors", VStr "only_download");
                                 ("retries", VInt 10);
                                 ("warn_when_outdated", VBool true)]) ∧
    heap w2 !! cd = heap w1 !! cd ∧
    (∀ l obj, heap w1 !! l = Some obj → heap w2 !! l = Some obj) ∧
    o ≠ cd ∧
    heap w2 !! o = Some (ODict cfg) ∧
    dict_get cfg "fragment_retries" = Some (VInt 10) ∧
    dict_get cfg "ignoreerrors" = Some (VStr "only_download") ∧
    dict_get cfg "retries" = Some (VInt 10) ∧
    dict_get cfg "warn_when_outdated" = Some (VBool true).
Proof.
  destruct (configuration_built w) as (w1 & Hcd & Hh1 & Hopts).
  eexists _, _, _, _, _. split; [exact Hcd|]. split; [exact Hopts|]. simpl.
  assert (Hold : ∀ l obj, heap w1 !! l = Some obj →
                          configured (heap w) !! l = Some obj).
  { intros l obj. rewrite Hh1. apply assembled_old. }
  assert (Hcd1 : heap w1 !! length (heap w) = Some (ODict cli_defaults_items)).
  { by rewrite Hh1, lookup_new_0. }
  split; [exact Hcd1|].
  split; [rewrite Hcd1; by apply Hold|].
  split; [exact Hold|].
  split; [lia|].
  split; [apply (configured_lookup _ 4)|].
  rewrite ?merged_cli_defaults. done.
Qed.

(** ** Reading values in a grown heap *)

Lemma mapM_related {A B} (f g : A → option B) (l1 l2 : list A) (k : list B) :
  Forall2 (λ x1 x2, ∀ y, f x1 = Some y → g x2 = Some y) l1 l2 →
  mapM f l1 = Some k → mapM g l2 = Some k.
Proof.
  intros Hrel. revert k. induction Hrel as [|x1 x2 l1 l2 Hx _ IH]; intros k.
  - done.
  - rewrite !mapM_Some. intros Hk.
    apply Forall2_cons_inv_l in Hk as (y & k' & Hy & Hk' & ->).
    constructor; [by apply Hx|]. apply mapM_Some, IH. by apply mapM_Some.
Qed.

Lemma mapM_impl {A B} (f g : A → option B) (l : list A) (k : list B) :
  (∀ x y, f x = Some y → g x = Some y) →
  mapM f l = Some k → mapM g l = Some k.
Proof.
  intros Hfg. apply mapM_related.
  apply Forall_Forall2_diag, Forall_forall. intros x _. apply Hfg.
Qed.

(** A value that reads as [t] still reads as [t] after allocations. *)
Lemma reify_mono n h news v t :
  reify n h v = Some t → reify n (h ++ news) v = Some t.
Proof.
  revert v t. induction n as [|n IH]; intros [z|b|s|l] t; try done.
  rewrite !reify_ref.
  destruct (h !! l) as [o|] eqn:Hl; [|done].
  rewrite (lookup_old _ news _ _ Hl).
  destruct o as [d|xs]; rewrite !fmap_Some; intros (k & Hk & ->); exists k;
    (split; [|done]); revert Hk; apply mapM_impl.
  - intros [key v] y. simpl. rewrite !fmap_Some.
    intros (t & Ht & ->). exists t. split; [by apply IH|done].
  - intros v y. apply IH.
Qed.

Lemma mapM_pointwise {A B} (f g : A → option B) (l1 l2 : list A) :
  Forall2 (λ x1 x2, f x1 = g x2) l1 l2 → mapM f l1 = mapM g l2.
Proof.
  induction 1 as [|x1 x2 l1 l2 Hx _ IH]; [done|].
  cbn [mapM]. by rewrite Hx, IH.
Qed.

Lemma dict_set_related (R : pyval → pyval → Prop) (d1 d2 : pydict) k v1 v2 :
  Forall2 (λ kv1 kv2, kv1.1 = kv2.1 ∧ R kv1.2 kv2.2) d1 d2 →
  R v1 v2 →
  Forall2 (λ kv1 kv2, kv1.1 = kv2.1 ∧ R kv1.2 kv2.2)
          (dict_set d1 k v1) (dict_set d2 k v2).
Proof.
  intros Hd Hv. induction Hd as [|[k1 x1] [k2 x2] d1 d2 [Hk Hx] Hd IH]; simpl.
  - by repeat constructor.
  - simpl in Hk. subst k2. destruct (decide (k1 = k)); by repeat constructor.
Qed.

Lemma merged_related (R : pyval → pyval → Prop) d p1 p2 :
  (∀ v, R v v) → R (VRef p1) (VRef p2) →
  Forall2 (λ kv1 kv2, kv1.1 = kv2.1 ∧ R kv1.2 kv2.2) (merged d p1) (merged d p2).
Proof.
  intros Hrefl Hp. unfold merged, dict_update at 1 3. simpl.
  repeat apply dict_set_related; try done.
  apply Forall_Forall2_diag, Forall_forall. by intros.
Qed.

Lemma same_value_dict h1 l1 d1 h2 l2 d2 :
  h1 !! l1 = Some (ODict d1) → h2 !! l2 = Some (ODict d2) →
  Forall2 (λ kv1 kv2, kv1.1 = kv2.1 ∧ same_value h1 kv1.2 h2 kv2.2) d1 d2 →
  same_value h1 (VRef l1) h2 (VRef l2).
Proof.
  intros Hl1 Hl2 Hd [|n]; [done|]. rewrite !reify_ref, Hl1, Hl2. f_equal.
  apply mapM_pointwise. eapply Forall2_impl; [exact Hd|].
  intros [k1 v1] [k2 v2] [Hkey Hv]. simpl in *. subst k2. by rewrite (Hv n).
Qed.

Lemma same_value_list h1 l1 xs1 h2 l2 xs2 :
  h1 !! l1 = Some (OList xs1) → h2 !! l2 = Some (OList xs2) →
  Forall2 (λ v1 v2, same_value h1 v1 h2 v2) xs1 xs2 →
  same_value h1 (VRef l1) h2 (VRef l2).
Proof.
  intros Hl1 Hl2 Hxs [|n]; [done|]. rewrite !reify_ref, Hl1, Hl2. f_equal.
  apply mapM_pointwise. eapply Forall2_impl; [exact Hxs|].
  intros v1 v2 Hv. apply Hv.
Qed.

(** After two executions, the dictionary built by the first and the one
    built by the second are equal values. *)
Lemma assembled_twice h d kept :
  let h1 := assembled h d kept in
  let h2 := assembled h1 d kept in
  same_value h2 (VRef (length h + 3)) h2 (VRef (length h1 + 3)).
Proof.
  intros h1 h2.
  assert (Hrefl : ∀ v, same_value h2 v h2 v) by done.
  eapply same_value_dict.
  - apply assembled_old, assembled_ydl_opts.
  - apply assembled_ydl_opts.
  - apply (merged_related (λ v1 v2, same_value h2 v1 h2 v2)); [exact Hrefl|].
    eapply same_value_list.
    + apply assembled_old, assembled_postprocessors.
    + apply assembled_postprocessors.
    + constructor.
      * eapply same_value_dict.
        -- apply assembled_old, assembled_step.
        -- apply assembled_step.
        -- apply Forall_Forall2_diag, Forall_forall. by intros kv _.
      * apply Forall_Forall2_diag, Forall_forall. by intros v _.
Qed.

(** Feeding the new dictionary back in as the defaults is another matter:
    its list already has the transcoding step, and the display adds one. *)
Example ydl_opts_of_its_result_adds_a_step :
  (let '(r, w) := ydl_opts 4 (World (configured []) (Filesystem ∅ true) []) in
   match r with
   | Ret o => reify 3 (heap w) (VRef o) ≫= λ t, tree_get t "postprocessors"
   | Raise _ => None
   end) = Some (TList [FFmpegExtractAudio_tree; FFmpegExtractAudio_tree]).
Proof. reflexivity. Qed.

(** C4. The assignment is a function of the state, and executing it a
    second time, on the state the first execution left, succeeds again and
    builds a new dictionary equal to the first one: both read as the same
    value afterwards, which is the value the first one had before the
    second execution.  Nothing that existed is changed, in the heap, the
    file system or the calls made. *)
Theorem ydl_opts_idempotent (w : world) (cd o1 : loc) (w1 : world) :
  ydl_opts cd w = (Ret o1, w1) →
  ∃ o2 w2,
    ydl_opts cd w1 = (Ret o2, w2) ∧
    o2 ≠ o1 ∧
    same_value (heap w2) (VRef o1) (heap w2) (VRef o2) ∧
    (∀ n t, reify n (heap w1) (VRef o1) = Some t → reify n (heap w2) (VRef o2) = Some t) ∧
    (∀ l obj, heap w1 !! l = Some obj → heap w2 !! l = Some obj) ∧
    fs w2 = fs w1 ∧
    calls w2 = calls w1.
Proof.
  rewrite ydl_opts_unfold.
  destruct (heap w !! cd) as [[d|xs]|] eqn:Hcd; try done. simpl.
  destruct (elements _ _) as [kept|] eqn:Hkept; [|done].
  intros [= <- <-].
  assert (Hkept1 : elements (assembled (heap w) d kept ++ [ODict FFmpegExtractAudio; OList []])
                     (default (VRef (length (assembled (heap w) d kept) + 1))
                              (dict_get d "postprocessors")) = Some kept).
  { destruct (dict_get d "postprocessors") as [v|]; simpl in *.
    - replace (assembled (heap w) d kept ++ [ODict FFmpegExtractAudio; OList []])
        with ((heap w ++ [ODict FFmpegExtractAudio; OList []]) ++
              [OList (VRef (length (heap w)) :: kept);
               ODict (merged d (length (heap w) + 2));
               ODict FFmpegExtractAudio; OList []])
        by (unfold assembled; by rewrite <- !app_assoc).
      by apply elements_mono.
    - rewrite lookup_new in Hkept. rewrite lookup_new.
      simpl in *. done. }
  eexists _, _. split.
  - rewrite ydl_opts_unfold. cbn [heap fs calls].
    rewrite (assembled_old _ _ _ _ _ Hcd). cbn zeta. rewrite Hkept1. done.
  - cbn [heap fs calls].
    split; [unfold assembled; rewrite length_app; simpl; lia|].
    split; [apply assembled_twice|].
    split.
    { intros n t Ht. rewrite <- (assembled_twice (heap w) d kept n).
      by apply reify_mono. }
    split; [|done]. intros l obj. apply assembled_old.
Qed.

Lemma ydl_opts_idempotent_witness :
  ∃ o2 w2,
    ydl_opts 0 (World (configured []) (Filesystem ∅ true) []) = (Ret o2, w2) ∧
    reify 3 (heap w2) (VRef o2) = Some ydl_opts_tree ∧
    reify 3 (heap w2) (VRef 4) = Some ydl_opts_tree.
Proof.
  destruct (ydl_opts_idempotent (World [ODict cli_defaults_items] (Filesystem ∅ true) [])
              0 4 (World (configured []) (Filesystem ∅ true) []))
    as (o2 & w2 & Hrun & _ & Hsame & Hread & _).
  - reflexivity.
  - exists o2, w2. split; [exact Hrun|].
    assert (Ho2 : reify 3 (heap w2) (VRef o2) = Some ydl_opts_tree).
    { apply Hread. reflexivity. }
    split; [exact Ho2|]. by rewrite (Hsame 3).
Defined.

(** ** Whole runs *)

Section Runs.
Variable dashed_args : list string → outcome string.
Variable engine : yt_dlp.

Lemma download_audio_run (youtube_url : string) (w : world) :
  download_audio engine youtube_url w =
  let h := configured (heap w) in
  let o := length (heap w) + 4 in
  match YoutubeDL_init engine h o (fs w) with
  | Some e => (Raise e, World h (fs w) (calls w ++ [CallYoutubeDL o]))
  | None =>
      let h' := h ++ [OList [VStr youtube_url]] in
      let l := length (heap w) + 5 in
      let '(f', r) := YoutubeDL_download engine h' o l (fs w) in
      (match r with Some e => Raise e | None => Ret () end,
       World h' f' (calls w ++ [CallYoutubeDL o; CallDownload l; CallExit]))
  end.
Proof.
  pose proof (ydl_opts_after_cli_defaults w) as Hopts.
  rewrite cli_defaults_run in Hopts. cbn [snd] in Hopts.
  unfold download_audio, bind at 1. rewrite cli_defaults_run.
  unfold bind at 1. rewrite Hopts.
  unfold bind at 1, YoutubeDL. cbn [heap fs calls]. cbn zeta.
  destruct (YoutubeDL_init _ _ _ _) as [e|]; [done|].
  unfold with_exit, bind, alloc, download, YoutubeDL_exit. cbn [heap fs calls].
  assert (Hlen : length (configured (heap w)) = length (heap w) + 5).
  { unfold configured, assembled. rewrite !length_app. simpl. lia. }
  rewrite Hlen.
  destruct (YoutubeDL_download _ _ _ _ _) as [f' [e|]];
    cbn [heap fs calls]; rewrite <- !app_assoc; done.
Qed.

Lemma main_unfold (argv : list string) (w : world) :
  main dashed_args engine argv w =
  match (parse_args dashed_args argv w).1 with
  | Raise e => (Raise e, w)
  | Ret youtube_url =>
      match os_makedirs OUTPUT_DIRECTORY true w with
      | (Raise e, w') => (Raise e, w')
      | (Ret _, w') => download_audio engine youtube_url w'
      end
  end.
Proof.
  unfold main, bind, parse_args. simpl.
  destruct (if existsb _ _ then _ else _); done.
Qed.


Lemma makedirs_can_make (w : world) :
  can_make OUTPUT_DIRECTORY (fs w) →
  ∃ f', os_makedirs OUTPUT_DIRECTORY true w = (Ret (), World (heap w) f' (calls w)) ∧
        os_path_isdir OUTPUT_DIRECTORY f' = true ∧
        (os_path_isdir OUTPUT_DIRECTORY (fs w) = true → f' = fs w) ∧
        (cwd (fs w) !! OUTPUT_DIRECTORY = None →
         f' = Filesystem (<[OUTPUT_DIRECTORY := Dir ∅]> (cwd (fs w))) true).
Proof.
  destruct w as [h [names writable] cs].
  unfold can_make, os_makedirs, os_mkdir, os_path_isdir. simpl.
  intros [Hdir|[Hfree ->]].
  - destruct (names !! OUTPUT_DIRECTORY) as [[data|entries]|] eqn:Hname; try done.
    exists (Filesystem names writable). simpl. by rewrite Hname.
  - rewrite Hfree. eexists. split; [done|]. simpl.
    rewrite lookup_insert_eq. done.
Qed.

Lemma makedirs_cannot_make (w : world) :
  ¬ can_make OUTPUT_DIRECTORY (fs w) →
  ∃ e, os_makedirs OUTPUT_DIRECTORY true w = (Raise (OSError e), w).
Proof.
  destruct w as [h [names writable] cs].
  unfold can_make, os_makedirs, os_mkdir, os_path_isdir. simpl. intros Hno.
  destruct (names !! OUTPUT_DIRECTORY) as [[data|entries]|] eqn:Hname.
  - by eexists.
  - destruct Hno. by left.
  - destruct writable; [|by eexists]. destruct Hno. by right.
Qed.

End Runs.

Lemma os_makedirs_frame name exist_ok w :
  heap (os_makedirs name exist_ok w).2 = heap w ∧
  calls (os_makedirs name exist_ok w).2 = calls w.
Proof.
  unfold os_makedirs. destruct (os_mkdir name (fs w)) as [e|f']; [|done].
  by destruct (negb exist_ok || negb (os_path_isdir name (fs w))).
Qed.

(** No run calls [download] twice. *)
Lemma download_at_most_once dashed engine argv f :
  (length (download_calls (calls (main dashed engine argv (boot f)).2)) ≤ 1)%nat.
Proof.
  rewrite main_unfold.
  destruct (parse_args dashed argv (boot f)).1 as [u|e]; [|simpl; lia].
  destruct (os_makedirs_frame OUTPUT_DIRECTORY true (boot f)) as [Hheap Hcalls].
  destruct (os_makedirs OUTPUT_DIRECTORY true (boot f)) as [[[]|e] [h f' cs]];
    simpl in Hheap, Hcalls; subst h cs; [|simpl; lia].
  rewrite download_audio_run. cbn [heap fs calls]. cbn zeta.
  destruct (YoutubeDL_init _ _ _ _) as [e|]; [simpl; lia|].
  destruct (YoutubeDL_download _ _ _ _ _) as [f'' r]. simpl. lia.
Qed.

(** C5, as the code has it. When [downloads] is already a directory, or
    the name is free and the working directory allows creating it, the
    directory step returns without error and [downloads] is a directory
    afterwards: it is created empty if it was missing, and if it was there
    the whole state, its contents included, is unchanged; no other name is
    touched; doing the step again changes nothing; and a run whose command
    line parses goes on from that state. *)
Theorem makedirs_idempotent (w : world) :
  can_make OUTPUT_DIRECTORY (fs w) →
  ∃ w',
    os_makedirs OUTPUT_DIRECTORY true w = (Ret (), w') ∧
    os_path_isdir OUTPUT_DIRECTORY (fs w') = true ∧
    (os_path_isdir OUTPUT_DIRECTORY (fs w) = true → w' = w) ∧
    (cwd (fs w) !! OUTPUT_DIRECTORY = None →
     cwd (fs w') = <[OUTPUT_DIRECTORY := Dir ∅]> (cwd (fs w))) ∧
    (∀ name, name ≠ OUTPUT_DIRECTORY → cwd (fs w') !! name = cwd (fs w) !! name) ∧
    os_makedirs OUTPUT_DIRECTORY true w' = (Ret (), w') ∧
    ∀ dashed engine argv u,
      (parse_args dashed argv w).1 = Ret u →
      main dashed engine argv w = download_audio engine u w'.
Proof.
  intros Hcan.
  destruct (makedirs_can_make w Hcan) as (f' & Hrun & Hdir & Hsame & Hnew).
  eexists. split; [exact Hrun|]. cbn [fs].
  split; [exact Hdir|].
  split; [intros H; rewrite (Hsame H); by destruct w|].
  split; [intros H; by rewrite (Hnew H)|].
  split.
  { intros name Hname. destruct Hcan as [H|[H _]].
    - by rewrite (Hsame H).
    - rewrite (Hnew H). cbn [cwd]. by rewrite lookup_insert_ne. }
  split.
  { destruct (makedirs_can_make (World (heap w) f' (calls w))) as (f'' & Hrun' & _ & Hsame' & _).
    - by left.
    - rewrite Hrun'. cbn [fs] in Hsame'. by rewrite (Hsame' Hdir). }
  intros dashed engine argv u Hparse. by rewrite main_unfold, Hparse, Hrun.
Qed.

Lemma makedirs_idempotent_witness :
  ∃ w',
    os_makedirs OUTPUT_DIRECTORY true (boot (Filesystem {["notes.txt" := File "x"]} true)) =
      (Ret (), w') ∧
    os_path_isdir OUTPUT_DIRECTORY (fs w') = true ∧
    os_makedirs OUTPUT_DIRECTORY true w' = (Ret (), w').
Proof.
  destruct (makedirs_idempotent (boot (Filesystem {["notes.txt" := File "x"]} true)))
    as (w' & Hrun & Hdir & _ & _ & _ & Hagain & _).
  - right. split; [compute_done | reflexivity].
  - by exists w'.
Defined.

(** C5 as stated fails: when [downloads] names a regular file the step
    raises [FileExistsError], the run ends with status 1 and there is no
    directory; the same happens with [PermissionError] when the name is
    free and the working directory is read-only. *)
Lemma makedirs_can_fail :
  let blocked := boot (Filesystem {["downloads" := File ""]} true) in
  let readonly := boot (Filesystem ∅ false) in
  os_makedirs OUTPUT_DIRECTORY true blocked = (Raise (OSError FileExistsError), blocked) ∧
  os_path_isdir OUTPUT_DIRECTORY (fs blocked) = false ∧
  main reject_dashed quiet_engine ["https://youtu.be/x"] blocked =
    (Raise (OSError FileExistsError), blocked) ∧
  os_makedirs OUTPUT_DIRECTORY true readonly = (Raise (OSError PermissionError), readonly) ∧
  ¬ (∀ f, ∃ w', os_makedirs OUTPUT_DIRECTORY true (boot f) = (Ret (), w') ∧
                os_path_isdir OUTPUT_DIRECTORY (fs w') = true).
Proof.
  repeat split; try by vm_compute.
  intros Hall.
  destruct (Hall (Filesystem {["downloads" := File ""]} true)) as (w' & Hrun & _).
  vm_compute in Hrun. discriminate.
Qed.


(** C8. With an empty command line the parser exits with status 2 and the
    run ends there, in the state it started in: no directory made, no call
    to the engine, nothing allocated.  The same holds for whatever makes
    the parser raise. *)
Theorem no_url_no_effect
    (dashed : list string → outcome string) (engine : yt_dlp) (w : world) :
  (parse_args dashed [] w).1 = Raise (SystemExit 2) ∧
  main dashed engine [] w = (Raise (SystemExit 2), w) ∧
  exit_status (main dashed engine [] w).1 ≠ 0%Z ∧
  cwd (fs (main dashed engine [] w).2) !! OUTPUT_DIRECTORY = cwd (fs w) !! OUTPUT_DIRECTORY ∧
  calls (main dashed engine [] w).2 = calls w ∧
  ∀ argv e, (parse_args dashed argv w).1 = Raise e →
            main dashed engine argv w = (Raise e, w).
Proof.
  repeat split; try done.
  intros argv e Hparse. by rewrite main_unfold, Hparse.
Qed.

(** ** More on whole runs: errors, the order of calls, the exit status *)

Lemma makedirs_raises (w : world) :
  ¬ can_make OUTPUT_DIRECTORY (fs w) →
  os_makedirs OUTPUT_DIRECTORY true w =
    (Raise (OSError (match cwd (fs w) !! OUTPUT_DIRECTORY with
                     | Some _ => FileExistsError
                     | None => PermissionError
                     end)), w).
Proof.
  destruct w as [h [names writable] cs].
  unfold can_make, os_makedirs, os_mkdir, os_path_isdir. simpl. intros Hno.
  destruct (names !! OUTPUT_DIRECTORY) as [[data|entries]|] eqn:Hname.
  - done.
  - destruct Hno. by left.
  - destruct writable; [|done]. destruct Hno. by right.
Qed.

Lemma after_makedirs_can_make (f : filesystem) :
  can_make OUTPUT_DIRECTORY f →
  os_makedirs OUTPUT_DIRECTORY true (boot f) = (Ret (), World [] (after_makedirs f) []) ∧
  os_path_isdir OUTPUT_DIRECTORY (after_makedirs f) = true.
Proof.
  intros Hcan. unfold after_makedirs.
  destruct (makedirs_can_make (boot f) Hcan) as (f' & Hrun & Hdir & _).
  by rewrite Hrun.
Qed.

(** A run that gets past the directory step, in full. *)
Lemma main_past_makedirs dashed engine argv u f :
  (parse_args dashed argv (boot f)).1 = Ret u →
  can_make OUTPUT_DIRECTORY f →
  main dashed engine argv (boot f) =
  match YoutubeDL_init engine (configured []) 4 (after_makedirs f) with
  | Some e => (Raise e, World (configured []) (after_makedirs f) [CallYoutubeDL 4])
  | None =>
      let h' := configured [] ++ [OList [VStr u]] in
      let res := YoutubeDL_download engine h' 4 5 (after_makedirs f) in
      (match res.2 with Some e => Raise e | None => Ret () end,
       World h' res.1 [CallYoutubeDL 4; CallDownload 5; CallExit])
  end.
Proof.
  intros Hparse Hcan.
  destruct (after_makedirs_can_make f Hcan) as [Hrun _].
  rewrite main_unfold, Hparse, Hrun, download_audio_run.
  cbn [heap fs calls length]. cbn zeta. simpl "+".
  destruct (YoutubeDL_init _ _ _ _) as [e|]; [done|].
  by destruct (YoutubeDL_download _ _ _ _ _) as [f'' r].
Qed.

(** The two assignments done, what is left of the script is the [with]
    statement, on the options just built. *)
Lemma download_audio_with engine (youtube_url : string) (w : world) :
  download_audio engine youtube_url w =
    with_YoutubeDL engine youtube_url (length (heap w) + 4)
      (World (configured (heap w)) (fs w) (calls w)).
Proof.
  pose proof (ydl_opts_after_cli_defaults w) as Hopts.
  rewrite cli_defaults_run in Hopts. cbn [snd] in Hopts.
  unfold download_audio, bind at 1. rewrite cli_defaults_run.
  unfold bind at 1. by rewrite Hopts.
Qed.

Lemma main_reaches_with dashed engine argv u f :
  (parse_args dashed argv (boot f)).1 = Ret u →
  can_make OUTPUT_DIRECTORY f →
  main dashed engine argv (boot f) =
    with_YoutubeDL engine u 4 (World (configured []) (after_makedirs f) []).
Proof.
  intros Hparse Hcan.
  destruct (after_makedirs_can_make f Hcan) as [Hrun _].
  by rewrite main_unfold, Hparse, Hrun, download_audio_with.
Qed.




(** C9. Take two runs from the same file system, on any two command lines
    that parse to a URL.  If the directory step goes through, the engine's
    constructor is called in the same state and on the same reference in
    both, with no call made before, and at that call the options read as
    the options of the script; the two runs differ only in the URL that
    the [with] statement then uses.  If the directory step raises, no
    options are built and the two runs are the same run. *)
Theorem config_independent_of_url
    (dashed : list string → outcome string) (engine : yt_dlp)
    (argv1 argv2 : list string) (u1 u2 : string) (f : filesystem) :
  (parse_args dashed argv1 (boot f)).1 = Ret u1 →
  (parse_args dashed argv2 (boot f)).1 = Ret u2 →
  (can_make OUTPUT_DIRECTORY f →
   ∃ opts at_constructor,
     main dashed engine argv1 (boot f) = with_YoutubeDL engine u1 opts at_constructor ∧
     main dashed engine argv2 (boot f) = with_YoutubeDL engine u2 opts at_constructor ∧
     reify 3 (heap at_constructor) (VRef opts) = Some ydl_opts_tree ∧
     calls at_constructor = []) ∧
  (¬ can_make OUTPUT_DIRECTORY f →
   main dashed engine argv1 (boot f) = main dashed engine argv2 (boot f) ∧
   heap (main dashed engine argv1 (boot f)).2 = []).
Proof.
  intros Hparse1 Hparse2. split.
  - intros Hcan. eexists _, _.
    split; [by apply main_reaches_with|].
    split; [by apply main_reaches_with|].
    split; [apply (reify_configured [])|done].
  - intros Hno. rewrite !main_unfold, Hparse1, Hparse2.
    by rewrite (makedirs_raises (boot f) Hno).
Qed.

Lemma config_independent_of_url_witness :
  ∃ opts at_constructor,
    main reject_dashed quiet_engine ["https://youtu.be/x"] (boot (Filesystem ∅ true)) =
      with_YoutubeDL quiet_engine "https://youtu.be/x" opts at_constructor ∧
    main reject_dashed quiet_engine ["https://example.org/playlist?list=1"]
         (boot (Filesystem ∅ true)) =
      with_YoutubeDL quiet_engine "https://example.org/playlist?list=1" opts at_constructor ∧
    reify 3 (heap at_constructor) (VRef opts) = Some ydl_opts_tree ∧
    calls at_constructor = [].
Proof.
  destruct (config_independent_of_url reject_dashed quiet_engine
              ["https://youtu.be/x"] ["https://example.org/playlist?list=1"]
              "https://youtu.be/x" "https://example.org/playlist?list=1"
              (Filesystem ∅ true)) as [Hmade _].
  - reflexivity.
  - reflexivity.
  - apply Hmade. right. split; [compute_done | reflexivity].
Defined.



Lemma makedirs_Ret_can_make (w w' : world) :
  os_makedirs OUTPUT_DIRECTORY true w = (Ret (), w') →
  can_make OUTPUT_DIRECTORY (fs w).
Proof.
  destruct w as [h [names writable] cs].
  unfold can_make, os_makedirs, os_mkdir, os_path_isdir. simpl.
  destruct (names !! OUTPUT_DIRECTORY) as [[data|entries]|] eqn:Hname; simpl.
  - done.
  - by left.
  - destruct writable; [by right | done].
Qed.

(** X5. Whatever the command line, the file system and the engine, the
    calls a run makes are none, or the constructor alone, or the
    constructor, one [download] and the exit of the [with] block, in this
    order: never a [download] without a constructed engine, never an exit
    without a [download], never two engines. *)
Theorem calls_follow_the_protocol
    (dashed : list string → outcome string) (engine : yt_dlp)
    (argv : list string) (f : filesystem) :
  calls (main dashed engine argv (boot f)).2 = [] ∨
  calls (main dashed engine argv (boot f)).2 = [CallYoutubeDL 4] ∨
  calls (main dashed engine argv (boot f)).2 = [CallYoutubeDL 4; CallDownload 5; CallExit].
Proof.
  destruct (parse_args dashed argv (boot f)).1 as [u|e] eqn:Hparse.
  - destruct (os_makedirs OUTPUT_DIRECTORY true (boot f)) as [[[]|e] w'] eqn:Hrun.
    + apply makedirs_Ret_can_make in Hrun as Hcan.
      rewrite (main_past_makedirs _ _ _ _ _ Hparse Hcan).
      destruct (YoutubeDL_init _ _ _ _); [by right; left | by right; right].
    + left. rewrite main_unfold, Hparse, Hrun. cbn [snd].
      pose proof (os_makedirs_frame OUTPUT_DIRECTORY true (boot f)) as [_ Hcalls].
      by rewrite Hrun in Hcalls.
  - left. by rewrite main_unfold, Hparse.
Qed.




(** ** More on the assignment to [ydl_opts]: its keys, its type errors *)

Lemma dict_set_keys (d : pydict) (k : string) (v : pyval) :
  (dict_set d k v).*1 = if decide (k ∈ d.*1) then d.*1 else d.*1 ++ [k].
Proof.
  induction d as [|[k' v'] d IH]; [done|].
  cbn [dict_set]. rewrite (fmap_cons fst (k', v') d). cbn [fst].
  destruct (decide (k' = k)) as [->|Hne]; rewrite fmap_cons; cbn [fst].
  - rewrite decide_True; [done | left].
  - rewrite IH. destruct (decide (k ∈ d.*1)) as [Hin|Hnin].
    + rewrite decide_True; [done | by right].
    + rewrite decide_False; [done|].
      rewrite not_elem_of_cons. split; [done | exact Hnin].
Qed.

Lemma dict_set_wf (d : pydict) (k : string) (v : pyval) :
  dict_wf d → dict_wf (dict_set d k v).
Proof.
  unfold dict_wf. intros Hwf. rewrite dict_set_keys.
  destruct (decide (k ∈ d.*1)) as [Hin|Hnin]; [done|].
  apply NoDup_app. split; [done|]. split.
  - intros x Hx Hk. apply list_elem_of_singleton in Hk. by subst x.
  - apply NoDup_singleton.
Qed.

Lemma merged_keys d p :
  dict_wf d →
  (merged d p).*1 =
    d.*1 ++ filter (λ k, k ∉ d.*1) ["format"; "postprocessors"; "outtmpl"].
Proof.
  intros Hwf. unfold merged, dict_update at 1. simpl foldl.
  rewrite (dict_update_nil _ Hwf), !dict_set_keys.
  rewrite !filter_cons, filter_nil.
  repeat case_decide; simpl; rewrite <- ?app_assoc, ?app_nil_r; simpl; try done;
    exfalso; set_unfold; intuition congruence.
Qed.

(** X7. The new dictionary never holds a key twice, and its keys are those
    of [cli_defaults], in their order, followed by those of ['format'],
    ['postprocessors'] and ['outtmpl'] that [cli_defaults] does not have: a
    key that collides keeps the place it has in [cli_defaults]. *)
Theorem ydl_opts_keys (w : world) (cd : loc) (d : pydict) (kept : list pyval) :
  heap w !! cd = Some (ODict d) →
  dict_wf d →
  supplied (heap w) d = Some kept →
  ∃ o w' cfg,
    ydl_opts cd w = (Ret o, w') ∧
    heap w' !! o = Some (ODict cfg) ∧
    dict_wf cfg ∧
    cfg.*1 = d.*1 ++ filter (λ k, k ∉ d.*1) ["format"; "postprocessors"; "outtmpl"].
Proof.
  intros Hcd Hwf Hkept.
  eexists _, _, _. split; [by apply ydl_opts_Ret|]. cbn [heap].
  split; [apply assembled_ydl_opts|].
  split; [|by apply merged_keys].
  unfold merged, dict_update at 1. simpl foldl.
  rewrite (dict_update_nil _ Hwf). by repeat apply dict_set_wf.
Qed.

Lemma ydl_opts_keys_witness :
  ∃ o w' cfg,
    ydl_opts 0 colliding_defaults = (Ret o, w') ∧
    heap w' !! o = Some (ODict cfg) ∧
    dict_wf cfg ∧
    cfg.*1 = ["format"; "retries"; "outtmpl"; "postprocessors"].
Proof.
  apply (ydl_opts_keys colliding_defaults 0
           [("format", VStr "worst"); ("retries", VInt 3); ("outtmpl", VStr "x")] []).
  - reflexivity.
  - unfold dict_wf. compute_done.
  - reflexivity.
Defined.

(** X8. When the ['postprocessors'] entry of [cli_defaults] is a number or
    a boolean, the assignment raises [TypeError] and no dictionary is
    built; the transcoding step and the empty default list have been
    allocated by then, and every object that existed is as it was. *)
Theorem ydl_opts_rejects_a_scalar_entry (w : world) (cd : loc) (d : pydict) (v : pyval) :
  heap w !! cd = Some (ODict d) →
  dict_get d "postprocessors" = Some v →
  iterable v = false →
  ydl_opts cd w =
    (Raise TypeError,
     World (heap w ++ [ODict FFmpegExtractAudio; OList []]) (fs w) (calls w)) ∧
  ∀ l obj, heap w !! l = Some obj → heap (ydl_opts cd w).2 !! l = Some obj.
Proof.
  intros Hcd Hv Hscalar.
  assert (Hrun : ydl_opts cd w =
                 (Raise TypeError,
                  World (heap w ++ [ODict FFmpegExtractAudio; OList []]) (fs w) (calls w))).
  { rewrite ydl_opts_unfold, Hcd, Hv. by destruct v. }
  split; [exact Hrun|]. rewrite Hrun. intros l obj. apply lookup_old.
Qed.

Lemma ydl_opts_rejects_a_scalar_entry_witness :
  ydl_opts 0 (World [ODict [("retries", VInt 10); ("postprocessors", VInt 3)]]
                (Filesystem ∅ true) []) =
    (Raise TypeError,
     World [ODict [("retries", VInt 10); ("postprocessors", VInt 3)];
            ODict FFmpegExtractAudio; OList []] (Filesystem ∅ true) []).
Proof.
  apply (ydl_opts_rejects_a_scalar_entry
           (World [ODict [("retries", VInt 10); ("postprocessors", VInt 3)]]
              (Filesystem ∅ true) [])
           0 [("retries", VInt 10); ("postprocessors", VInt 3)] (VInt 3));
    reflexivity.
Defined.
